(** * A shallow embedding of the toukaPadding middleware (padding.go, paddings.go)

    Go [int] values are integers of [Z] that stay in the signed 64-bit range;
    arithmetic on them wraps around as [wrap64] says.  A Go panic is [None]
    in the [option] results below; Go's [(value, error)] results are [res].
    The entropy source [crypto/rand.Reader] is an oracle [Entropy] indexed by
    the number of reads made so far, so stateful code threads that counter. *)

From Stdlib Require Import ZArith Lia String Ascii List.
From stdpp Require Import base gmap strings list.
Import ListNotations.

Local Open Scope Z_scope.

(** ** Go integers *)

Definition int64_min : Z := - 2 ^ 63.
Definition int64_max : Z := 2 ^ 63 - 1.
Definition is_int64 (z : Z) : Prop := int64_min <= z <= int64_max.

(** Two's-complement wrap-around of a 64-bit Go [int]. *)
Definition wrap64 (z : Z) : Z := (z + 2 ^ 63) mod 2 ^ 64 - 2 ^ 63.

(** ** The results of Go functions *)

(** The two errors of this package: [errors.New("min cannot be greater than
    max")] in [randInt], and a read error of [crypto/rand.Reader]. *)
Inductive goerr := ErrMinGtMax | ErrReader.

Inductive res (A : Type) := ROk (a : A) | RErr (e : goerr).
Arguments ROk {A} a.
Arguments RErr {A} e.

(** ** The entropy source

    [e k n] is the [k]-th read of [crypto/rand.Int(rand.Reader, n)]: a value,
    or [None] when the reader fails.  The documented contract of [rand.Int]
    is that a value lies in [[0, n)]; [entropy_ok] states it. *)
Definition Entropy := nat -> Z -> option Z.

Definition entropy_ok (e : Entropy) : Prop :=
  forall k n v, 0 < n -> e k n = Some v -> 0 <= v < n.

(** [rand.Int(rand.Reader, n)]: panics when [n <= 0]; returns 0 without
    reading when [n = 1] (the bit length of [n - 1] is 0); otherwise one read. *)
Definition rand_Int (e : Entropy) (k : nat) (n : Z) : option (res Z * nat) :=
  if n <=? 0 then None
  else if n =? 1 then Some (ROk 0, k)
  else match e k n with
       | Some v => Some (ROk v, S k)
       | None => Some (RErr ErrReader, S k)
       end.

(** ** padding.go *)

Definition maxPaddingSize : Z := 4096.
Definition paddingCharset : string := "X".

(** [randInt(min, max)] (padding.go, lines 77-90). *)
Definition randInt (e : Entropy) (k : nat) (min max : Z) : option (res Z * nat) :=
  if min >? max then Some (RErr ErrMinGtMax, k)
  else if min =? max then Some (ROk min, k)
  else
    (* n := big.NewInt(int64(max - min + 1)) *)
    let n := wrap64 (wrap64 (max - min) + 1) in
    match rand_Int e k n with
    | None => None
    | Some (RErr err, k') => Some (RErr err, k')
    | Some (ROk val, k') => Some (ROk (wrap64 (val + min)), k')
    end.

(** Go's slice expression [s[lo:hi]] on a slice whose capacity is its length. *)
Definition go_slice {A} (s : list A) (lo hi : Z) : option (list A) :=
  if (0 <=? lo) && (lo <=? hi) && (hi <=? Z.of_nat (length s))
  then Some (firstn (Z.to_nat (hi - lo)) (skipn (Z.to_nat lo) s))
  else None.

(** [init()] (padding.go, lines 28-39): [maxPaddingSize] draws
    [rand.Int(rand.Reader, len(paddingCharset))], each picking a character of
    [paddingCharset]; a failed draw panics. *)
Fixpoint init_loop (e : Entropy) (k : nat) (i : nat) : option (list ascii * nat) :=
  match i with
  | O => Some ([], k)
  | S i' =>
      match rand_Int e k (Z.of_nat (String.length paddingCharset)) with
      | None | Some (RErr _, _) => None
      | Some (ROk idx, k1) =>
          match String.get (Z.to_nat idx) paddingCharset with
          | None => None (* index out of range *)
          | Some c =>
              match init_loop e k1 i' with
              | None => None
              | Some (rest, k2) => Some (c :: rest, k2)
              end
          end
      end
  end.

Definition init (e : Entropy) : option (list ascii * nat) :=
  init_loop e 0 (Z.to_nat maxPaddingSize).

(** [getPaddingSlice(length)] (padding.go, lines 93-106), reading the pool
    [precomputedPaddingData] filled by [init]. *)
Definition getPaddingSlice (precomputedPaddingData : list ascii)
    (e : Entropy) (k : nat) (length : Z) : option (list ascii * nat) :=
  if length <=? 0 then Some ([], k)   (* return nil *)
  else
    let length := if length >? maxPaddingSize then maxPaddingSize else length in
    let maxStart := maxPaddingSize - length in
    match randInt e k 0 maxStart with
    | None => None
    | Some (r, k') =>
        let start := match r with ROk s => s | RErr _ => 0 end in
        match go_slice precomputedPaddingData start (start + length) with
        | None => None
        | Some d => Some (d, k')
        end
    end.

(** ** net/http headers

    [http.Header] is [map[string][]string]; [Set] and [Get] go through
    [textproto.CanonicalMIMEHeaderKey]: a key made only of token bytes is
    rewritten with an upper-case letter at the start and after each '-', and
    lower case elsewhere; any other key is left as it is. *)

Definition is_token_byte (c : ascii) : bool :=
  let n := nat_of_ascii c in
  ((48 <=? n) && (n <=? 57))%nat || ((65 <=? n) && (n <=? 90))%nat
  || ((97 <=? n) && (n <=? 122))%nat
  || existsb (Ascii.eqb c) (list_ascii_of_string "!#$%&'*+-.^_`|~").

Definition to_upper (c : ascii) : ascii :=
  let n := nat_of_ascii c in
  if ((97 <=? n) && (n <=? 122))%nat then ascii_of_nat (n - 32) else c.

Definition to_lower (c : ascii) : ascii :=
  let n := nat_of_ascii c in
  if ((65 <=? n) && (n <=? 90))%nat then ascii_of_nat (n + 32) else c.

Fixpoint canonical_loop (upper : bool) (s : string) : string :=
  match s with
  | EmptyString => EmptyString
  | String c s' =>
      let c' := if upper then to_upper c else to_lower c in
      String c' (canonical_loop (Ascii.eqb c' "-") s')
  end.

Definition CanonicalMIMEHeaderKey (s : string) : string :=
  if forallb is_token_byte (list_ascii_of_string s) then canonical_loop true s
  else s.

Abbreviation Header := (gmap string (list string)).

Definition Header_Set (h : Header) (key value : string) : Header :=
  <[CanonicalMIMEHeaderKey key := [value]]> h.

Definition Header_Get (h : Header) (key : string) : option string :=
  match h !! CanonicalMIMEHeaderKey key with
  | Some (v :: _) => Some v
  | _ => None
  end.

(** ** Profiles, options and the heap they live in

    [PaddingOptions.Profile] is a [*PaddingProfile]: a location of the heap
    [Heap], or [nil].  The three presets are package variables at fixed
    locations. *)

Record PaddingProfile := { MinLength : Z; MaxLength : Z }.

Abbreviation loc := positive.
Abbreviation Heap := (gmap loc PaddingProfile).

Definition loc_ProfileDefault : loc := 1%positive.
Definition loc_ProfileShort : loc := 2%positive.
Definition loc_ProfileLong : loc := 3%positive.

Definition ProfileDefault := {| MinLength := 96; MaxLength := 1024 |}.
Definition ProfileShort := {| MinLength := 32; MaxLength := 256 |}.
Definition ProfileLong := {| MinLength := 1024; MaxLength := maxPaddingSize |}.

(** The package variables as the program starts. *)
Definition initial_heap : Heap :=
  <[loc_ProfileDefault := ProfileDefault]>
  (<[loc_ProfileShort := ProfileShort]>
  (<[loc_ProfileLong := ProfileLong]> ∅)).

Record PaddingOptions := { HeaderName : string; Profile : option loc }.

Definition set_MaxLength (p : PaddingProfile) (m : Z) : PaddingProfile :=
  {| MinLength := MinLength p; MaxLength := m |}.
Definition set_MinLength (p : PaddingProfile) (m : Z) : PaddingProfile :=
  {| MinLength := m; MaxLength := MaxLength p |}.

(** The block "validate and set the configuration defaults" that opens both [ToukaPadding]
    (padding.go, lines 121-140) and [ToukaPaddingS] (paddings.go, lines
    65-83); the two copies differ only in their log messages, which are not
    modelled.  [opts] is a copy, but [opts.Profile.X = ...] writes through
    the pointer into the heap.  A dangling pointer ([None]) cannot occur in
    Go. *)
Definition validate_opts (h : Heap) (opts : PaddingOptions)
    : option (Heap * PaddingOptions) :=
  let name := if String.eqb (HeaderName opts) "" then "T-Padding"%string
              else HeaderName opts in
  let l := match Profile opts with
           | None => loc_ProfileDefault
           | Some l => l
           end in
  p0 ← h !! l;
  let h1 := if MaxLength p0 >? maxPaddingSize
            then <[l := set_MaxLength p0 maxPaddingSize]> h else h in
  p1 ← h1 !! l;
  let h2 := if MinLength p1 <? 0 then <[l := set_MinLength p1 0]> h1 else h1 in
  p2 ← h2 !! l;
  let h3 := if MinLength p2 >? MaxLength p2
            then <[l := set_MinLength p2 (MaxLength p2)]> h2 else h2 in
  Some (h3, {| HeaderName := name; Profile := Some l |}).

(** The profile that [opts.Profile] points to. *)
Definition deref_profile (h : Heap) (opts : PaddingOptions) : option PaddingProfile :=
  match Profile opts with
  | None => None
  | Some l => h !! l
  end.

(** ** The outbound middleware

    An [http.Request] is its header map ([None] for a nil map) and the rest
    of the request, left abstract. *)

Record Request (Rest : Type) := { ReqHeader : option Header; ReqRest : Rest }.
Arguments ReqHeader {Rest} r.
Arguments ReqRest {Rest} r.

Module Httpc.

(** The per-request function of [ToukaPadding] (padding.go, lines 144-163),
    for the options produced by [validate_opts] and the heap at request
    time; [next] is [next.RoundTrip].  It returns what [next] returns, with
    the entropy counter. *)
Definition ToukaPadding {Rest R : Type} (pool : list ascii) (e : Entropy)
    (k : nat) (h : Heap) (opts : PaddingOptions)
    (next : Request Rest -> R) (req : Request Rest) : option (R * nat) :=
  prof ← deref_profile h opts;
  match randInt e k (MinLength prof) (MaxLength prof) with
  | None => None
  | Some (RErr _, k1) => (* log.Printf(...) *) Some (next req, k1)
  | Some (ROk paddingLen, k1) =>
      if paddingLen >? 0 then
        match getPaddingSlice pool e k1 paddingLen with
        | None => None
        | Some (paddingData, k2) =>
            let hdr := match ReqHeader req with
                       | None => ∅            (* make(http.Header) *)
                       | Some hdr => hdr
                       end in
            let req' := {| ReqHeader :=
                             Some (Header_Set hdr (HeaderName opts)
                                     (string_of_list_ascii paddingData));
                           ReqRest := ReqRest req |} in
            Some (next req', k2)
        end
      else Some (next req, k1)
  end.

End Httpc.

Module HttpHandler.

(** The per-request function of [ToukaPadding] in src/unnamed/part_000
    (lines 38-60): the same steps, then [next.ServeHTTP(w, r)]. *)
Definition ToukaPadding {Rest W R : Type} (pool : list ascii) (e : Entropy)
    (k : nat) (h : Heap) (opts : PaddingOptions)
    (next : W -> Request Rest -> R) (w : W) (r : Request Rest) : option (R * nat) :=
  prof ← deref_profile h opts;
  match randInt e k (MinLength prof) (MaxLength prof) with
  | None => None
  | Some (RErr _, k1) => Some (next w r, k1)
  | Some (ROk paddingLen, k1) =>
      if paddingLen >? 0 then
        match getPaddingSlice pool e k1 paddingLen with
        | None => None
        | Some (paddingData, k2) =>
            let hdr := match ReqHeader r with
                       | None => ∅
                       | Some hdr => hdr
                       end in
            let r' := {| ReqHeader :=
                           Some (Header_Set hdr (HeaderName opts)
                                   (string_of_list_ascii paddingData));
                         ReqRest := ReqRest r |} in
            Some (next w r', k2)
        end
      else Some (next w r, k1)
  end.

End HttpHandler.

(** ** paddings.go: the response-writer wrapper

    The wrapped [touka.ResponseWriter] is observed through the calls the
    wrapper delegates to it: [WriteHeader(status)], which commits the status
    and the header map as they are at that moment, and [Write(data)].  Its
    [Header()] map is shared with the wrapper ([prw.Header()] is the embedded
    writer's method).  The mutex only orders the accesses to [wroteHeader];
    this model runs the calls of one response one after the other. *)

Inductive Event :=
| EvWriteHeader (statusCode : Z) (committed : Header)
| EvWrite (data : list ascii).

Record paddingResponseWriter := {
  wroteHeader : bool;
  header : Header;        (* prw.ResponseWriter.Header() *)
  delegated : list Event; (* calls made to prw.ResponseWriter, oldest first *)
  draws : nat             (* reads of crypto/rand.Reader so far *)
}.

Definition StatusOK : Z := 200.

Definition set_wroteHeader (w : paddingResponseWriter) : paddingResponseWriter :=
  {| wroteHeader := true; header := header w; delegated := delegated w;
     draws := draws w |}.

Definition set_header_draws (w : paddingResponseWriter) (h : Header) (k : nat) :=
  {| wroteHeader := wroteHeader w; header := h; delegated := delegated w;
     draws := k |}.

Definition delegate (w : paddingResponseWriter) (ev : Event) :=
  {| wroteHeader := wroteHeader w; header := header w;
     delegated := delegated w ++ [ev]; draws := draws w |}.

Section Writer.

Variable precomputedPaddingData : list ascii.
Variable e : Entropy.
(** The heap at call time and [prw.opts], as [validate_opts] left them. *)
Variable h : Heap.
Variable opts : PaddingOptions.

(** [prw.WriteHeader(statusCode)] (paddings.go, lines 22-41). *)
Definition WriteHeader (prw : paddingResponseWriter) (statusCode : Z)
    : option paddingResponseWriter :=
  if wroteHeader prw then Some prw
  else
    let prw := set_wroteHeader prw in
    prof ← deref_profile h opts;
    match randInt e (draws prw) (MinLength prof) (MaxLength prof) with
    | None => None
    | Some (RErr _, k1) =>
        (* log.Printf(...) *)
        let prw := set_header_draws prw (header prw) k1 in
        Some (delegate prw (EvWriteHeader statusCode (header prw)))
    | Some (ROk paddingLen, k1) =>
        if paddingLen >? 0 then
          match getPaddingSlice precomputedPaddingData e k1 paddingLen with
          | None => None
          | Some (paddingData, k2) =>
              let prw := set_header_draws prw
                           (Header_Set (header prw) (HeaderName opts)
                              (string_of_list_ascii paddingData)) k2 in
              Some (delegate prw (EvWriteHeader statusCode (header prw)))
          end
        else
          let prw := set_header_draws prw (header prw) k1 in
          Some (delegate prw (EvWriteHeader statusCode (header prw)))
    end.

(** [prw.Write(data)] (paddings.go, lines 45-58): the
    unlocked check and the check under the lock read the same flag here.
    The wrapped writer's [Write] returns [len(data), nil]. *)
Definition Write (prw : paddingResponseWriter) (data : list ascii)
    : option (paddingResponseWriter * Z) :=
  let r :=
    if negb (wroteHeader prw) then
      if negb (wroteHeader prw) then WriteHeader prw StatusOK else Some prw
    else Some prw in
  match r with
  | None => None
  | Some prw => Some (delegate prw (EvWrite data), Z.of_nat (length data))
  end.

End Writer.

(** A fresh wrapper, as [ToukaPaddingS] builds it for each request, around
    a writer whose header map is [hdr]. *)
Definition new_writer (hdr : Header) (k : nat) : paddingResponseWriter :=
  {| wroteHeader := false; header := hdr; delegated := []; draws := k |}.

Fixpoint count_header_writes (evs : list Event) : nat :=
  match evs with
  | [] => O
  | EvWriteHeader _ _ :: evs' => S (count_header_writes evs')
  | EvWrite _ :: evs' => count_header_writes evs'
  end.

(** The calls the rest of the handler chain ([c.Next()] in [ToukaPaddingS],
    paddings.go, lines 85-96) makes on [c.Writer], which is the wrapper
    built around the request's writer. *)
Inductive WriterCall :=
| CallWriteHeader (statusCode : Z)
| CallWrite (data : list ascii).

Fixpoint run_calls (pool : list ascii) (e : Entropy) (h : Heap) (opts : PaddingOptions)
    (prw : paddingResponseWriter) (calls : list WriterCall)
    : option paddingResponseWriter :=
  match calls with
  | [] => Some prw
  | CallWriteHeader s :: cs =>
      match WriteHeader pool e h opts prw s with
      | Some prw1 => run_calls pool e h opts prw1 cs
      | None => None
      end
  | CallWrite d :: cs =>
      match Write pool e h opts prw d with
      | Some (prw1, _) => run_calls pool e h opts prw1 cs
      | None => None
      end
  end.

(** The body writes of a call sequence, as the wrapped writer receives them. *)
Definition body_writes (calls : list WriterCall) : list Event :=
  flat_map (fun c => match c with CallWrite d => [EvWrite d] | CallWriteHeader _ => [] end)
    calls.

(** The status the first call commits: its own, or 200 for a [Write]. *)
Definition first_status (calls : list WriterCall) : Z :=
  match calls with
  | CallWriteHeader s :: _ => s
  | _ => StatusOK
  end.

(** * Properties *)

(** ** Arithmetic of Go integers *)

Lemma wrap64_small (z : Z) : is_int64 z -> wrap64 z = z.
Proof.
  unfold is_int64, int64_min, int64_max, wrap64. intros Hz.
  rewrite Z.mod_small; lia.
Qed.

(** The span [max - min + 1] of [randInt] is positive only when it does not
    wrap around; then it is the true span. *)
Lemma span_positive (d : Z) :
  0 < d <= 2 ^ 64 - 1 -> 0 < wrap64 (wrap64 d + 1) -> wrap64 (wrap64 d + 1) = d + 1.
Proof.
  intros Hd Hpos.
  destruct (Z_le_gt_dec d (2 ^ 63 - 1)) as [Hle | Hgt].
  - rewrite (wrap64_small d) in * by (unfold is_int64, int64_min, int64_max; lia).
    destruct (Z.eq_dec d (2 ^ 63 - 1)) as [Heq | Hne].
    + subst d. exfalso. revert Hpos. unfold wrap64. vm_compute. discriminate.
    + apply wrap64_small. unfold is_int64, int64_min, int64_max; lia.
  - assert (Hw : wrap64 d = d - 2 ^ 64).
    { unfold wrap64.
      rewrite <- (Z.mod_unique (d + 2 ^ 63) (2 ^ 64) 1 (d + 2 ^ 63 - 2 ^ 64)); lia. }
    rewrite Hw in Hpos. rewrite wrap64_small in Hpos
      by (unfold is_int64, int64_min, int64_max; lia).
    lia.
Qed.

Ltac int64_facts :=
  unfold is_int64, int64_min, int64_max in *.

Lemma gtb_false (a b : Z) : a <= b -> (a >? b) = false.
Proof. intros H. rewrite Z.gtb_ltb. apply Z.ltb_ge. exact H. Qed.

Lemma gtb_false_le (a b : Z) : (a >? b) = false -> a <= b.
Proof. rewrite Z.gtb_ltb. apply Z.ltb_ge. Qed.

(** [randInt] with equal bounds reads nothing and returns the bound. *)
Lemma randInt_same (e : Entropy) (k : nat) (m : Z) :
  randInt e k m m = Some (ROk m, k).
Proof. unfold randInt. rewrite Z.gtb_ltb, Z.ltb_irrefl, Z.eqb_refl. reflexivity. Qed.

Lemma randInt_gt (e : Entropy) (k : nat) (min max : Z) :
  min > max -> randInt e k min max = Some (RErr ErrMinGtMax, k).
Proof.
  intros H. unfold randInt.
  replace (min >? max) with true by (symmetry; apply Z.gtb_lt; lia). reflexivity.
Qed.

(** [rand.Int] with a bound of at least 2 makes one read. *)
Lemma rand_Int_read (e : Entropy) (k : nat) (n : Z) :
  1 < n ->
  rand_Int e k n = match e k n with
                   | Some v => Some (ROk v, S k)
                   | None => Some (RErr ErrReader, S k)
                   end.
Proof.
  intros Hn. unfold rand_Int.
  replace (n <=? 0) with false by (symmetry; apply Z.leb_gt; lia).
  replace (n =? 1) with false by (symmetry; apply Z.eqb_neq; lia).
  reflexivity.
Qed.

(** A successful [randInt] on Go integers lies in [[min, max]]. *)
Lemma randInt_ok_range (e : Entropy) (k : nat) (min max v : Z) (k' : nat) :
  entropy_ok e -> is_int64 min -> is_int64 max ->
  randInt e k min max = Some (ROk v, k') -> min <= v <= max.
Proof.
  intros He Hmin Hmax. unfold randInt.
  destruct (min >? max) eqn:Hgt; [discriminate |].
  destruct (min =? max) eqn:Heq.
  { intros [= <- _]. apply Z.eqb_eq in Heq. lia. }
  apply gtb_false_le in Hgt. apply Z.eqb_neq in Heq.
  destruct (wrap64 (wrap64 (max - min) + 1) <=? 0) eqn:Hn.
  { unfold rand_Int. rewrite Hn. discriminate. }
  apply Z.leb_gt in Hn.
  assert (Hs : wrap64 (wrap64 (max - min) + 1) = max - min + 1)
    by (apply span_positive; [int64_facts; lia | exact Hn]).
  rewrite Hs in *. rewrite rand_Int_read by lia.
  destruct (e k (max - min + 1)) as [val |] eqn:Hval; [| discriminate].
  intros [= <- _].
  pose proof (He k (max - min + 1) val ltac:(lia) Hval).
  rewrite wrap64_small by (int64_facts; lia). lia.
Qed.

(** [randInt] does not panic when the span fits in a Go [int]. *)
Lemma randInt_total (e : Entropy) (k : nat) (min max : Z) :
  entropy_ok e -> is_int64 min -> is_int64 max -> min <= max ->
  max - min <= 2 ^ 63 - 2 ->
  exists r k', randInt e k min max = Some (r, k')
    /\ (forall v, r = ROk v -> min <= v <= max)
    /\ (r = RErr ErrReader \/ exists v, r = ROk v).
Proof.
  intros He Hmin Hmax Hle Hspan.
  destruct (Z.eq_dec min max) as [<- | Hne].
  { exists (ROk min), k. rewrite randInt_same.
    split; [reflexivity | split; [intros v [= <-]; lia | eauto]]. }
  destruct (randInt e k min max) as [[r k'] |] eqn:Hr.
  - exists r, k'. split; [reflexivity |]. split.
    + intros v ->. eapply randInt_ok_range; eauto.
    + revert Hr. unfold randInt.
      rewrite gtb_false by lia.
      replace (min =? max) with false by (symmetry; apply Z.eqb_neq; lia).
      rewrite (wrap64_small (max - min)) by (int64_facts; lia).
      rewrite (wrap64_small (max - min + 1)) by (int64_facts; lia).
      rewrite rand_Int_read by lia.
      destruct (e k _); intros [= <- _]; eauto.
  - exfalso. revert Hr. unfold randInt.
    rewrite gtb_false by lia.
    replace (min =? max) with false by (symmetry; apply Z.eqb_neq; lia).
    rewrite (wrap64_small (max - min)) by (int64_facts; lia).
    rewrite (wrap64_small (max - min + 1)) by (int64_facts; lia).
    rewrite rand_Int_read by lia.
    destruct (e k _); discriminate.
Qed.

(** ** getPaddingSlice *)

Lemma go_slice_in_bounds {A} (s : list A) (lo hi : Z) :
  0 <= lo <= hi -> hi <= Z.of_nat (length s) ->
  go_slice s lo hi = Some (firstn (Z.to_nat (hi - lo)) (skipn (Z.to_nat lo) s)).
Proof.
  intros H1 H2. unfold go_slice.
  replace (0 <=? lo) with true by (symmetry; apply Z.leb_le; lia).
  replace (lo <=? hi) with true by (symmetry; apply Z.leb_le; lia).
  replace (hi <=? Z.of_nat (length s)) with true by (symmetry; apply Z.leb_le; lia).
  reflexivity.
Qed.

Lemma length_firstn_skipn {A} (s : list A) (n m : nat) :
  (n + m <= length s)%nat -> length (firstn n (skipn m s)) = n.
Proof. intros H. rewrite length_firstn, length_skipn. lia. Qed.

(** What [getPaddingSlice] returns, for every length and every behaviour of
    the entropy source allowed by [rand.Int]'s contract. *)
Lemma getPaddingSlice_result (pool : list ascii) (e : Entropy) (k : nat) (len : Z) :
  entropy_ok e -> length pool = Z.to_nat maxPaddingSize ->
  exists d k', getPaddingSlice pool e k len = Some (d, k')
    /\ (len <= 0 -> d = [])
    /\ (0 < len ->
        exists start, 0 <= start <= maxPaddingSize - Z.min len maxPaddingSize
          /\ d = firstn (Z.to_nat (Z.min len maxPaddingSize)) (skipn (Z.to_nat start) pool)
          /\ (forall err k1, randInt e k 0 (maxPaddingSize - Z.min len maxPaddingSize)
                             = Some (RErr err, k1) -> start = 0)).
Proof.
  intros He Hpool. unfold getPaddingSlice.
  destruct (len <=? 0) eqn:Hlen.
  { apply Z.leb_le in Hlen. exists [], k. split; [reflexivity |].
    split; [reflexivity | lia]. }
  apply Z.leb_gt in Hlen.
  assert (HL : (if len >? maxPaddingSize then maxPaddingSize else len)
               = Z.min len maxPaddingSize).
  { destruct (len >? maxPaddingSize) eqn:Hc.
    - apply Z.gtb_lt in Hc. unfold maxPaddingSize in *. lia.
    - apply gtb_false_le in Hc. unfold maxPaddingSize in *. lia. }
  rewrite HL.
  set (L := Z.min len maxPaddingSize).
  assert (HLr : 0 < L <= maxPaddingSize) by (subst L; unfold maxPaddingSize in *; lia).
  destruct (randInt_total e k 0 (maxPaddingSize - L)) as (r & k' & Hr & Hrange & Hkind);
    [exact He | int64_facts; unfold maxPaddingSize in *; lia
    | int64_facts; unfold maxPaddingSize in *; lia | lia
    | unfold maxPaddingSize in *; lia |].
  rewrite Hr.
  set (start := match r with ROk s => s | RErr _ => 0 end).
  assert (Hstart : 0 <= start <= maxPaddingSize - L).
  { subst start. destruct r as [v | err]; [apply Hrange; reflexivity | lia]. }
  rewrite go_slice_in_bounds by (try rewrite Hpool; unfold maxPaddingSize in *; lia).
  exists (firstn (Z.to_nat (start + L - start)) (skipn (Z.to_nat start) pool)), k'.
  split; [reflexivity |]. split; [lia |]. intros _.
  exists start. split; [exact Hstart |]. split.
  - f_equal. f_equal. lia.
  - intros err k1 Herr. injection Herr as -> _. reflexivity.
Qed.

(** ** The claims on randInt and getPaddingSlice *)

(** An entropy source that always returns the largest allowed value. *)
Definition e_last : Entropy := fun _ n => Some (n - 1).

(** A source whose every read fails. *)
Definition e_fail : Entropy := fun _ _ => None.

(** The pool [init] fills: the only character of [paddingCharset]. *)
Definition pool_X : list ascii := repeat "X"%char (Z.to_nat maxPaddingSize).

(** C3: for Go integers [min <= max], a value returned by [randInt(min, max)]
    lies in [[min, max]]; when [min = max], [randInt] returns [min] for any
    entropy source, without a read (the read counter is unchanged). *)
Theorem randInt_in_closed_range (e : Entropy) (k : nat) (min max : Z) :
  entropy_ok e -> is_int64 min -> is_int64 max -> min <= max ->
  (forall v k', randInt e k min max = Some (ROk v, k') -> min <= v <= max)
  /\ (min = max -> forall e' : Entropy, randInt e' k min max = Some (ROk min, k)).
Proof.
  intros He Hmin Hmax Hle. split.
  - intros v k'. apply randInt_ok_range; assumption.
  - intros <- e'. apply randInt_same.
Qed.

Lemma randInt_in_closed_range_witness :
  (forall v k', randInt e_last 0 3 10 = Some (ROk v, k') -> 3 <= v <= 10)
  /\ (3 = 3 -> forall e' : Entropy, randInt e' 0 3 3 = Some (ROk 3, 0%nat)).
Proof.
  split.
  - apply (randInt_in_closed_range e_last 0 3 10);
      [ unfold entropy_ok, e_last; intros k n v Hn [= <-]; lia
      | int64_facts; lia | int64_facts; lia | lia ].
  - apply (randInt_in_closed_range e_last 0 3 3);
      [ unfold entropy_ok, e_last; intros k n v Hn [= <-]; lia
      | int64_facts; lia | int64_facts; lia | lia ].
Defined.

(** C4: for [min > max], [randInt(min, max)] returns the error
    "min cannot be greater than max" and no value, without a read. *)
Theorem randInt_rejects_inverted_range (e : Entropy) (k : nat) (min max : Z) :
  min > max -> randInt e k min max = Some (RErr ErrMinGtMax, k).
Proof. apply randInt_gt. Qed.

Lemma randInt_rejects_inverted_range_witness :
  randInt e_last 0 10 3 = Some (RErr ErrMinGtMax, 0%nat).
Proof. apply (randInt_rejects_inverted_range e_last 0 10 3). lia. Defined.

(** C5: [getPaddingSlice(length)] on the 4096-byte pool returns nothing for
    [length <= 0], exactly 4096 bytes for [length > 4096], and for
    [0 < length <= 4096] exactly [length] contiguous bytes of the pool from an
    offset in [[0, 4096 - length]]; the pool is an input and is left as it is. *)
Theorem getPaddingSlice_lengths (pool : list ascii) (e : Entropy) (k : nat) (len : Z) :
  entropy_ok e -> length pool = Z.to_nat maxPaddingSize ->
  exists d k', getPaddingSlice pool e k len = Some (d, k')
    /\ (len <= 0 -> d = [])
    /\ (len > maxPaddingSize -> length d = Z.to_nat maxPaddingSize)
    /\ (0 < len <= maxPaddingSize ->
        length d = Z.to_nat len
        /\ exists start, 0 <= start <= maxPaddingSize - len
           /\ d = firstn (Z.to_nat len) (skipn (Z.to_nat start) pool)).
Proof.
  intros He Hpool.
  destruct (getPaddingSlice_result pool e k len He Hpool)
    as (d & k' & Hd & Hneg & Hpos).
  exists d, k'. split; [exact Hd |]. split; [exact Hneg |]. split.
  - intros Hbig. destruct Hpos as (start & Hs & -> & _); [unfold maxPaddingSize in *; lia |].
    rewrite Z.min_r in * by (unfold maxPaddingSize in *; lia).
    apply length_firstn_skipn. rewrite Hpool. unfold maxPaddingSize in *. lia.
  - intros Hmid. destruct Hpos as (start & Hs & -> & _); [lia |].
    rewrite Z.min_l in * by lia. split.
    + apply length_firstn_skipn. rewrite Hpool. unfold maxPaddingSize in *. lia.
    + exists start. split; [exact Hs | reflexivity].
Qed.

Lemma getPaddingSlice_lengths_witness :
  exists d k', getPaddingSlice pool_X e_last 0 10 = Some (d, k')
    /\ (10 <= 0 -> d = [])
    /\ (10 > maxPaddingSize -> length d = Z.to_nat maxPaddingSize)
    /\ (0 < 10 <= maxPaddingSize ->
        length d = Z.to_nat 10
        /\ exists start, 0 <= start <= maxPaddingSize - 10
           /\ d = firstn (Z.to_nat 10) (skipn (Z.to_nat start) pool_X)).
Proof.
  apply (getPaddingSlice_lengths pool_X e_last 0 10).
  - unfold entropy_ok, e_last; intros k n v Hn [= <-]; lia.
  - vm_compute. reflexivity.
Defined.

(** C10: [getPaddingSlice] never panics, for every length and every outcome
    of the entropy source: it returns [L = max 0 (min length 4096)] bytes of
    the pool from an offset [start] with [start + L <= 4096], and when the
    offset draw fails, [start] is 0. *)
Theorem getPaddingSlice_total (pool : list ascii) (e : Entropy) (k : nat) (len : Z) :
  entropy_ok e -> length pool = Z.to_nat maxPaddingSize ->
  let L := Z.max 0 (Z.min len maxPaddingSize) in
  exists d k' start, getPaddingSlice pool e k len = Some (d, k')
    /\ length d = Z.to_nat L
    /\ 0 <= start <= maxPaddingSize - L
    /\ d = firstn (Z.to_nat L) (skipn (Z.to_nat start) pool)
    /\ (forall err k1, 0 < len ->
          randInt e k 0 (maxPaddingSize - L) = Some (RErr err, k1) -> start = 0).
Proof.
  intros He Hpool L.
  destruct (getPaddingSlice_result pool e k len He Hpool)
    as (d & k' & Hd & Hneg & Hpos).
  destruct (Z_le_gt_dec len 0) as [Hle | Hgt].
  - exists d, k', 0. rewrite (Hneg Hle) in *.
    assert (HL0 : L = 0) by (subst L; lia). rewrite HL0.
    split; [exact Hd |]. split; [reflexivity |]. split; [unfold maxPaddingSize; lia |].
    split; [reflexivity | intros; lia].
  - destruct (Hpos ltac:(lia)) as (start & Hs & Hdeq & Hfail).
    assert (HL : L = Z.min len maxPaddingSize)
      by (subst L; unfold maxPaddingSize in *; lia).
    exists d, k', start. rewrite HL.
    split; [exact Hd |]. split.
    + rewrite Hdeq. apply length_firstn_skipn. rewrite Hpool.
      unfold maxPaddingSize in *. lia.
    + split; [exact Hs |]. split; [exact Hdeq |].
      intros err k1 _ Herr. exact (Hfail err k1 Herr).
Qed.

Lemma getPaddingSlice_total_witness :
  let L := Z.max 0 (Z.min 10 maxPaddingSize) in
  exists d k' start, getPaddingSlice pool_X e_fail 0 10 = Some (d, k')
    /\ length d = Z.to_nat L
    /\ 0 <= start <= maxPaddingSize - L
    /\ d = firstn (Z.to_nat L) (skipn (Z.to_nat start) pool_X)
    /\ (forall err k1, 0 < 10 ->
          randInt e_fail 0 0 (maxPaddingSize - L) = Some (RErr err, k1) -> start = 0).
Proof.
  apply (getPaddingSlice_total pool_X e_fail 0 10).
  - unfold entropy_ok, e_fail; intros k n v Hn [=].
  - vm_compute. reflexivity.
Defined.

(** ** Installation: validate_opts *)

Definition opts_loc (opts : PaddingOptions) : loc :=
  match Profile opts with None => loc_ProfileDefault | Some l => l end.

(** The profile [validate_opts] leaves behind, computed in one step. *)
Definition clamped (p : PaddingProfile) : PaddingProfile :=
  let mx := Z.min (MaxLength p) maxPaddingSize in
  {| MinLength := Z.min (Z.max (MinLength p) 0) mx; MaxLength := mx |}.

Lemma validate_opts_result (h : Heap) (opts : PaddingOptions) (p0 : PaddingProfile) :
  h !! opts_loc opts = Some p0 ->
  validate_opts h opts =
    Some (<[opts_loc opts := clamped p0]> h,
          {| HeaderName := if String.eqb (HeaderName opts) "" then "T-Padding"%string
                           else HeaderName opts;
             Profile := Some (opts_loc opts) |}).
Proof.
  intros Hp0. unfold validate_opts. fold (opts_loc opts).
  set (l := opts_loc opts). fold l in Hp0.
  remember (if String.eqb (HeaderName opts) "" then "T-Padding"%string
            else HeaderName opts) as nm.
  rewrite Hp0. simpl.
  destruct p0 as [mn mx]. unfold clamped, set_MaxLength, set_MinLength; simpl.
  repeat (match goal with
    | H : (_ >? _) = true |- _ => apply Z.gtb_lt in H
    | H : (_ >? _) = false |- _ => apply gtb_false_le in H
    | H : (_ <? _) = true |- _ => apply Z.ltb_lt in H
    | H : (_ <? _) = false |- _ => apply Z.ltb_ge in H
    | |- context [if (?a >? ?b) then _ else _] => destruct (a >? b) eqn:?
    | |- context [if (?a <? ?b) then _ else _] => destruct (a <? b) eqn:?
    end; rewrite ?lookup_insert_eq, ?Hp0; simpl).
  all: rewrite ?insert_insert_eq; unfold maxPaddingSize in *;
    first [ do 2 f_equal; symmetry; apply insert_id; rewrite Hp0; f_equal; f_equal; lia
          | do 3 f_equal; f_equal; lia ].
Qed.

Lemma validate_opts_dangling (h : Heap) (opts : PaddingOptions) :
  h !! opts_loc opts = None -> validate_opts h opts = None.
Proof. intros H. unfold validate_opts. fold (opts_loc opts). rewrite H. reflexivity. Qed.

Lemma validate_opts_inv (h : Heap) (opts : PaddingOptions) h' opts' :
  validate_opts h opts = Some (h', opts') ->
  exists p0, h !! opts_loc opts = Some p0
    /\ h' = <[opts_loc opts := clamped p0]> h
    /\ Profile opts' = Some (opts_loc opts)
    /\ HeaderName opts' = (if String.eqb (HeaderName opts) "" then "T-Padding"%string
                           else HeaderName opts)
    /\ deref_profile h' opts' = Some (clamped p0).
Proof.
  intros Hv. destruct (h !! opts_loc opts) as [p0 |] eqn:Hp0.
  - rewrite (validate_opts_result h opts p0 Hp0) in Hv.
    injection Hv as <- <-. exists p0. simpl.
    split; [reflexivity |]. split; [reflexivity |]. split; [reflexivity |].
    split; [reflexivity |]. unfold deref_profile; simpl. apply lookup_insert_eq.
  - rewrite validate_opts_dangling in Hv by exact Hp0. discriminate.
Qed.

Lemma clamped_bounds (p0 : PaddingProfile) :
  MinLength (clamped p0) <= MaxLength (clamped p0) <= maxPaddingSize
  /\ (0 <= MinLength (clamped p0) \/ MinLength (clamped p0) = MaxLength (clamped p0)).
Proof. destruct p0 as [mn mx]. unfold clamped, maxPaddingSize; simpl. lia. Qed.

(** A caller's own profile [p], stored next to the presets. *)
Definition caller_loc : loc := 4%positive.
Definition caller_heap (p : PaddingProfile) : Heap := <[caller_loc := p]> initial_heap.
Definition caller_opts (name : string) : PaddingOptions :=
  {| HeaderName := name; Profile := Some caller_loc |}.

(** ** The claims on the installation step *)

(** C6, as stated: after [validate_opts], [0 <= MinLength <= MaxLength <= 4096].
    It fails for a caller profile [{MinLength: 0, MaxLength: -5}], which
    [validate_opts] turns into [{-5, -5}]. *)
Lemma validate_opts_nonneg_counterexample :
  ~ (forall (h : Heap) (opts : PaddingOptions) h' opts',
       validate_opts h opts = Some (h', opts') ->
       exists p, deref_profile h' opts' = Some p
         /\ 0 <= MinLength p /\ MinLength p <= MaxLength p
         /\ MaxLength p <= maxPaddingSize).
Proof.
  intros Hclaim.
  edestruct (Hclaim (caller_heap {| MinLength := 0; MaxLength := -5 |})
                    (caller_opts "X-Pad")) as (p & Hp & Hb); [reflexivity |].
  vm_compute in Hp. injection Hp as <-. simpl in *. lia.
Qed.

(** C6, amended: after [validate_opts] (the block that opens [ToukaPadding]
    and [ToukaPaddingS]), the profile [opts.Profile] points to has
    [MinLength <= MaxLength <= 4096], its [MaxLength] is the caller's capped
    at 4096, [0 <= MinLength] whenever the caller's [MaxLength] is
    non-negative, and [MinLength = MaxLength] (the caller's negative
    [MaxLength]) when it is negative. *)
Theorem validate_opts_bounds (h : Heap) (opts : PaddingOptions) h' opts' :
  validate_opts h opts = Some (h', opts') ->
  exists p0 p, h !! opts_loc opts = Some p0 /\ deref_profile h' opts' = Some p
    /\ MinLength p <= MaxLength p <= maxPaddingSize
    /\ MaxLength p = Z.min (MaxLength p0) maxPaddingSize
    /\ (0 <= MaxLength p0 -> 0 <= MinLength p)
    /\ (MaxLength p0 < 0 -> MinLength p = MaxLength p).
Proof.
  intros Hv. destruct (validate_opts_inv h opts h' opts' Hv)
    as (p0 & Hp0 & _ & _ & _ & Hd).
  exists p0, (clamped p0). split; [exact Hp0 |]. split; [exact Hd |].
  destruct p0 as [mn mx]. unfold clamped, maxPaddingSize; simpl. lia.
Qed.

Lemma validate_opts_bounds_witness :
  exists p0 p,
    caller_heap {| MinLength := 0; MaxLength := -5 |} !! opts_loc (caller_opts "X-Pad") = Some p0
    /\ deref_profile (<[caller_loc := {| MinLength := -5; MaxLength := -5 |}]>
                        (caller_heap {| MinLength := 0; MaxLength := -5 |}))
                     {| HeaderName := "X-Pad"; Profile := Some caller_loc |} = Some p
    /\ MinLength p <= MaxLength p <= maxPaddingSize
    /\ MaxLength p = Z.min (MaxLength p0) maxPaddingSize
    /\ (0 <= MaxLength p0 -> 0 <= MinLength p)
    /\ (MaxLength p0 < 0 -> MinLength p = MaxLength p).
Proof.
  apply (validate_opts_bounds (caller_heap {| MinLength := 0; MaxLength := -5 |})
           (caller_opts "X-Pad")).
  vm_compute. reflexivity.
Defined.

(** C9: installing the middleware with the caller's profile
    [{MinLength: 0, MaxLength: 5000}] writes [MaxLength = 4096] into that
    profile: [opts] is a copy, [opts.Profile] still points to the caller's
    object. *)
Theorem validate_opts_writes_caller_profile :
  exists h' opts',
    validate_opts (caller_heap {| MinLength := 0; MaxLength := 5000 |})
                  (caller_opts "X-Pad") = Some (h', opts')
    /\ caller_heap {| MinLength := 0; MaxLength := 5000 |} !! caller_loc
       = Some {| MinLength := 0; MaxLength := 5000 |}
    /\ h' !! caller_loc = Some {| MinLength := 0; MaxLength := 4096 |}.
Proof.
  do 2 eexists. split; [reflexivity |]. split; vm_compute; reflexivity.
Qed.

(** ** Per-message sampling on an installed profile *)

(** On a profile left by [validate_opts], [randInt] never panics. *)
Lemma clamped_randInt (e : Entropy) (k : nat) (p0 : PaddingProfile) :
  entropy_ok e ->
  exists r k1, randInt e k (MinLength (clamped p0)) (MaxLength (clamped p0)) = Some (r, k1)
    /\ (forall v, r = ROk v -> MinLength (clamped p0) <= v <= MaxLength (clamped p0)).
Proof.
  intros He. destruct (clamped_bounds p0) as [Hb [Hnn | Heq]].
  - destruct (randInt_total e k (MinLength (clamped p0)) (MaxLength (clamped p0)))
      as (r & k1 & Hr & Hrange & _);
      [exact He | int64_facts; unfold maxPaddingSize in *; lia
      | int64_facts; unfold maxPaddingSize in *; lia | lia
      | unfold maxPaddingSize in *; lia |].
    exists r, k1. split; [exact Hr | exact Hrange].
  - rewrite <- Heq. exists (ROk (MinLength (clamped p0))), k.
    split; [apply randInt_same |].
    intros v Hv. injection Hv as Hv. change (MinLength (clamped p0) = v) in Hv. lia.
Qed.

Lemma Header_Get_Set (hd : Header) (name v : string) :
  Header_Get (Header_Set hd name v) name = Some v.
Proof. unfold Header_Get, Header_Set. rewrite lookup_insert_eq. reflexivity. Qed.

(** The padding header of a request, as [req.Header.Get(name)] reads it. *)
Definition Request_Get {Rest} (r : Request Rest) (name : string) : option string :=
  match ReqHeader r with
  | Some hd => Header_Get hd name
  | None => None
  end.

Lemma getPaddingSlice_length (pool : list ascii) (e : Entropy) (k : nat) (len : Z) d k' :
  entropy_ok e -> length pool = Z.to_nat maxPaddingSize -> 0 < len ->
  getPaddingSlice pool e k len = Some (d, k') ->
  length d = Z.to_nat (Z.min len maxPaddingSize).
Proof.
  intros He Hpool Hlen Hg.
  destruct (getPaddingSlice_result pool e k len He Hpool)
    as (d' & k'' & Hg' & _ & Hpos).
  rewrite Hg in Hg'. injection Hg' as <- <-.
  destruct (Hpos Hlen) as (start & Hs & -> & _).
  apply length_firstn_skipn. rewrite Hpool. unfold maxPaddingSize in *. lia.
Qed.

(** What the outbound middleware hands to [next], on options installed by
    [validate_opts]. *)
Lemma Httpc_ToukaPadding_result {Rest R : Type} (pool : list ascii) (e : Entropy)
    (k : nat) (h : Heap) (opts : PaddingOptions) h' opts'
    (next : Request Rest -> R) (req : Request Rest) :
  entropy_ok e -> length pool = Z.to_nat maxPaddingSize ->
  validate_opts h opts = Some (h', opts') ->
  exists p r k1 req' k', deref_profile h' opts' = Some p
    /\ randInt e k (MinLength p) (MaxLength p) = Some (r, k1)
    /\ Httpc.ToukaPadding pool e k h' opts' next req = Some (next req', k')
    /\ (forall v, r = ROk v -> MinLength p <= v <= MaxLength p)
    /\ ((match r with ROk len => len <= 0 | RErr _ => True end) -> req' = req /\ k' = k1)
    /\ (forall len, r = ROk len -> 0 < len ->
          exists d, getPaddingSlice pool e k1 len = Some (d, k')
            /\ length d = Z.to_nat (Z.min len maxPaddingSize)
            /\ Request_Get req' (HeaderName opts') = Some (string_of_list_ascii d)).
Proof.
  intros He Hpool Hv.
  destruct (validate_opts_inv h opts h' opts' Hv) as (p0 & _ & _ & _ & _ & Hd).
  destruct (clamped_randInt e k p0 He) as (r & k1 & Hr & Hrange).
  unfold Httpc.ToukaPadding. rewrite Hd. cbn [mbind option_bind]. rewrite Hr.
  destruct r as [len | err].
  - destruct (len >? 0) eqn:Hl.
    + apply Z.gtb_lt in Hl.
      destruct (getPaddingSlice_result pool e k1 len He Hpool) as (d & k2 & Hg & _ & _).
      rewrite Hg.
      eexists _, (ROk len), k1, _, k2.
      split; [reflexivity |]. split; [exact Hr |]. split; [reflexivity |].
      split; [exact Hrange |]. split; [intros Hle; lia |].
      intros len' [= <-] _. exists d. split; [exact Hg |]. split.
      * apply (getPaddingSlice_length pool e k1 len d k2 He Hpool Hl Hg).
      * unfold Request_Get; simpl. apply Header_Get_Set.
    + apply gtb_false_le in Hl.
      eexists _, (ROk len), k1, req, k1.
      split; [reflexivity |]. split; [exact Hr |]. split; [reflexivity |].
      split; [exact Hrange |]. split; [intros _; split; reflexivity |].
      intros len' [= <-]. lia.
  - eexists _, (RErr err), k1, req, k1.
    split; [reflexivity |]. split; [exact Hr |]. split; [reflexivity |].
    split; [intros v [=] |]. split; [intros _; split; reflexivity |].
    intros len' [=].
Qed.

(** The [http.Handler] version of part_000 runs the same steps as the
    [httpc] version, with [next.ServeHTTP(w, .)] as the continuation. *)
Lemma HttpHandler_is_Httpc {Rest W R : Type} (pool : list ascii) (e : Entropy)
    (k : nat) (h : Heap) (opts : PaddingOptions)
    (next : W -> Request Rest -> R) (w : W) (r : Request Rest) :
  HttpHandler.ToukaPadding pool e k h opts next w r
  = Httpc.ToukaPadding pool e k h opts (next w) r.
Proof. reflexivity. Qed.

(** What the wrapper's [WriteHeader] does on its first call, on options
    installed by [validate_opts]. *)
Lemma WriteHeader_first (pool : list ascii) (e : Entropy) (h : Heap)
    (opts : PaddingOptions) h' opts' (prw : paddingResponseWriter) (status : Z) :
  entropy_ok e -> length pool = Z.to_nat maxPaddingSize ->
  validate_opts h opts = Some (h', opts') -> wroteHeader prw = false ->
  exists p r k1 prw', deref_profile h' opts' = Some p
    /\ randInt e (draws prw) (MinLength p) (MaxLength p) = Some (r, k1)
    /\ WriteHeader pool e h' opts' prw status = Some prw'
    /\ wroteHeader prw' = true
    /\ delegated prw' = delegated prw ++ [EvWriteHeader status (header prw')]
    /\ ((match r with ROk len => len <= 0 | RErr _ => True end) -> header prw' = header prw)
    /\ (forall len, r = ROk len -> 0 < len ->
          exists d, getPaddingSlice pool e k1 len = Some (d, draws prw')
            /\ length d = Z.to_nat (Z.min len maxPaddingSize)
            /\ header prw' = Header_Set (header prw) (HeaderName opts')
                               (string_of_list_ascii d)).
Proof.
  intros He Hpool Hv Hw.
  destruct (validate_opts_inv h opts h' opts' Hv) as (p0 & _ & _ & _ & _ & Hd).
  destruct (clamped_randInt e (draws prw) p0 He) as (r & k1 & Hr & _).
  unfold WriteHeader. rewrite Hw. rewrite Hd. cbn [mbind option_bind draws set_wroteHeader].
  rewrite Hr.
  destruct r as [len | err].
  - destruct (len >? 0) eqn:Hl.
    + apply Z.gtb_lt in Hl.
      destruct (getPaddingSlice_result pool e k1 len He Hpool) as (d & k2 & Hg & _ & _).
      rewrite Hg.
      eexists _, (ROk len), k1, _.
      split; [reflexivity |]. split; [exact Hr |]. split; [reflexivity |].
      split; [reflexivity |]. split; [reflexivity |]. split; [intros Hle; lia |].
      intros len' [= <-] _. exists d. split; [exact Hg |]. split.
      * apply (getPaddingSlice_length pool e k1 len d k2 He Hpool Hl Hg).
      * reflexivity.
    + apply gtb_false_le in Hl.
      eexists _, (ROk len), k1, _.
      split; [reflexivity |]. split; [exact Hr |]. split; [reflexivity |].
      split; [reflexivity |]. split; [reflexivity |]. split; [reflexivity |].
      intros len' [= <-]. lia.
  - eexists _, (RErr err), k1, _.
    split; [reflexivity |]. split; [exact Hr |]. split; [reflexivity |].
    split; [reflexivity |]. split; [reflexivity |]. split; [reflexivity |].
    intros len' [=].
Qed.

Ltac entropy_ok_tac :=
  unfold entropy_ok, e_last, e_fail; intros ? ? ? ? Hv;
  first [discriminate Hv | injection Hv; lia].

(** ** The claims on the outbound middleware *)

(** C8: on installed options, the outbound middleware (the [httpc] version
    and the [http.Handler] version of part_000) never panics and returns
    exactly what [next] returns; when the length draw fails, [next] gets the
    request unchanged. *)
Theorem ToukaPadding_fail_open {Rest W R : Type} (pool : list ascii) (e : Entropy)
    (k : nat) (h : Heap) (opts : PaddingOptions) h' opts'
    (next : Request Rest -> R) (serve : W -> Request Rest -> R) (w : W)
    (req : Request Rest) :
  entropy_ok e -> length pool = Z.to_nat maxPaddingSize ->
  validate_opts h opts = Some (h', opts') ->
  (exists req' k', Httpc.ToukaPadding pool e k h' opts' next req = Some (next req', k')
     /\ (forall p err k1, deref_profile h' opts' = Some p ->
           randInt e k (MinLength p) (MaxLength p) = Some (RErr err, k1) -> req' = req))
  /\ (exists req' k', HttpHandler.ToukaPadding pool e k h' opts' serve w req
                      = Some (serve w req', k')
     /\ (forall p err k1, deref_profile h' opts' = Some p ->
           randInt e k (MinLength p) (MaxLength p) = Some (RErr err, k1) -> req' = req)).
Proof.
  intros He Hpool Hv. split.
  - destruct (Httpc_ToukaPadding_result pool e k h opts h' opts' next req He Hpool Hv)
      as (p & r & k1 & req' & k' & Hd & Hr & Hrun & _ & Hnone & _).
    exists req', k'. split; [exact Hrun |].
    intros p' err k1' Hd' Hr'. rewrite Hd in Hd'. injection Hd' as <-.
    rewrite Hr in Hr'. injection Hr' as -> _. apply Hnone. exact I.
  - rewrite HttpHandler_is_Httpc.
    destruct (Httpc_ToukaPadding_result pool e k h opts h' opts' (serve w) req He Hpool Hv)
      as (p & r & k1 & req' & k' & Hd & Hr & Hrun & _ & Hnone & _).
    exists req', k'. split; [exact Hrun |].
    intros p' err k1' Hd' Hr'. rewrite Hd in Hd'. injection Hd' as <-.
    rewrite Hr in Hr'. injection Hr' as -> _. apply Hnone. exact I.
Qed.

Lemma ToukaPadding_fail_open_witness :
  (exists req' k', Httpc.ToukaPadding pool_X e_fail 0 initial_heap
                     {| HeaderName := "T-Padding"; Profile := Some loc_ProfileDefault |}
                     (fun r : Request unit => r) {| ReqHeader := None; ReqRest := tt |}
                   = Some (req', k')
     /\ (forall p err k1, deref_profile initial_heap
                            {| HeaderName := "T-Padding"; Profile := Some loc_ProfileDefault |}
                          = Some p ->
           randInt e_fail 0 (MinLength p) (MaxLength p) = Some (RErr err, k1) ->
           req' = {| ReqHeader := None; ReqRest := tt |}))
  /\ (exists req' k', HttpHandler.ToukaPadding pool_X e_fail 0 initial_heap
                     {| HeaderName := "T-Padding"; Profile := Some loc_ProfileDefault |}
                     (fun (_ : unit) (r : Request unit) => r) tt
                     {| ReqHeader := None; ReqRest := tt |}
                   = Some (req', k')
     /\ (forall p err k1, deref_profile initial_heap
                            {| HeaderName := "T-Padding"; Profile := Some loc_ProfileDefault |}
                          = Some p ->
           randInt e_fail 0 (MinLength p) (MaxLength p) = Some (RErr err, k1) ->
           req' = {| ReqHeader := None; ReqRest := tt |})).
Proof.
  apply (ToukaPadding_fail_open pool_X e_fail 0 initial_heap
           {| HeaderName := ""; Profile := None |}).
  - entropy_ok_tac.
  - vm_compute. reflexivity.
  - vm_compute. reflexivity.
Defined.

Lemma string_of_list_ascii_length (d : list ascii) :
  String.length (string_of_list_ascii d) = length d.
Proof. induction d as [| c d IH]; simpl; [reflexivity | rewrite IH; reflexivity]. Qed.

Lemma clamped_degenerate (L : Z) :
  clamped {| MinLength := L; MaxLength := L |}
  = {| MinLength := Z.min L maxPaddingSize; MaxLength := Z.min L maxPaddingSize |}.
Proof. unfold clamped, maxPaddingSize; simpl. f_equal. lia. Qed.

(** C7, as stated, on the outbound path: a degenerate profile [{L, L}] with
    [L > 0] gives a header value of exactly [L] bytes.  It fails for
    [L = 5000]: the installed profile is [{4096, 4096}]. *)
Lemma degenerate_profile_counterexample :
  ~ (forall (pool : list ascii) (e : Entropy) (k : nat) (h : Heap)
            (opts : PaddingOptions) h' opts' (l : loc) (L : Z) (req : Request unit),
       entropy_ok e -> length pool = Z.to_nat maxPaddingSize ->
       Profile opts = Some l -> h !! l = Some {| MinLength := L; MaxLength := L |} ->
       validate_opts h opts = Some (h', opts') ->
       exists req' k', Httpc.ToukaPadding pool e k h' opts' (fun r => r) req = Some (req', k')
         /\ (0 < L -> exists v, Request_Get req' (HeaderName opts) = Some v
                                /\ String.length v = Z.to_nat L)
         /\ (L = 0 -> req' = req)).
Proof.
  intros Hclaim.
  edestruct (Hclaim pool_X e_last 0%nat
               (caller_heap {| MinLength := 5000; MaxLength := 5000 |})
               (caller_opts "X-Pad")
               (<[caller_loc := {| MinLength := 4096; MaxLength := 4096 |}]>
                  (caller_heap {| MinLength := 5000; MaxLength := 5000 |}))
               {| HeaderName := "X-Pad"; Profile := Some caller_loc |}
               caller_loc 5000 {| ReqHeader := None; ReqRest := tt |})
    as (req' & k' & Hrun & Hpos & _);
    [entropy_ok_tac | vm_compute; reflexivity | reflexivity | reflexivity
    | vm_compute; reflexivity |].
  vm_compute in Hrun. injection Hrun as <- _.
  destruct (Hpos ltac:(lia)) as (v & Hv & Hlen).
  vm_compute in Hv. injection Hv as <-. vm_compute in Hlen. discriminate Hlen.
Qed.

(** C7, amended: for a degenerate caller profile [{L, L}], on the outbound
    path and in the response wrapper's [WriteHeader], the header named by
    the installed options ("T-Padding" when the name is empty) holds exactly
    [min L 4096] bytes when [L > 0], for every outcome of the entropy source;
    when [L <= 0] no header is set.  On the response side this holds for the
    [WriteHeader] that commits the header, whatever its status code (later
    calls change nothing, C1). *)
Theorem degenerate_profile_padding_length {Rest : Type} (pool : list ascii)
    (e : Entropy) (k : nat) (h : Heap) (opts : PaddingOptions) h' opts'
    (l : loc) (L : Z) (req : Request Rest) (prw : paddingResponseWriter) (s : Z) :
  entropy_ok e -> length pool = Z.to_nat maxPaddingSize ->
  Profile opts = Some l -> h !! l = Some {| MinLength := L; MaxLength := L |} ->
  validate_opts h opts = Some (h', opts') -> wroteHeader prw = false ->
  HeaderName opts' = (if String.eqb (HeaderName opts) "" then "T-Padding"%string
                      else HeaderName opts)
  /\ (exists req' k', Httpc.ToukaPadding pool e k h' opts' (fun r => r) req = Some (req', k')
       /\ (0 < L -> exists v, Request_Get req' (HeaderName opts') = Some v
                              /\ String.length v = Z.to_nat (Z.min L maxPaddingSize))
       /\ (L <= 0 -> req' = req))
  /\ (exists prw', WriteHeader pool e h' opts' prw s = Some prw'
       /\ delegated prw' = delegated prw ++ [EvWriteHeader s (header prw')]
       /\ (0 < L -> exists v, Header_Get (header prw') (HeaderName opts') = Some v
                              /\ String.length v = Z.to_nat (Z.min L maxPaddingSize))
       /\ (L <= 0 -> header prw' = header prw)).
Proof.
  intros He Hpool Hl HL Hv Hw.
  assert (Hloc : opts_loc opts = l) by (unfold opts_loc; rewrite Hl; reflexivity).
  destruct (validate_opts_inv h opts h' opts' Hv) as (p0 & Hp0 & _ & _ & Hname & Hd).
  rewrite Hloc, HL in Hp0. injection Hp0 as <-.
  rewrite clamped_degenerate in Hd.
  set (M := Z.min L maxPaddingSize) in *.
  split; [exact Hname |]. split.
  - destruct (Httpc_ToukaPadding_result pool e k h opts h' opts' (fun r : Request Rest => r)
                req He Hpool Hv)
      as (p & r & k1 & req' & k' & Hd' & Hr & Hrun & _ & Hnone & Hsome).
    rewrite Hd in Hd'. injection Hd' as <-. simpl in Hr.
    rewrite randInt_same in Hr. injection Hr as <- <-.
    exists req', k'. split; [exact Hrun |]. split.
    + intros HLpos.
      destruct (Hsome M eq_refl ltac:(subst M; unfold maxPaddingSize; lia))
        as (d & _ & Hlen & Hget).
      exists (string_of_list_ascii d). split; [exact Hget |].
      rewrite string_of_list_ascii_length, Hlen. f_equal.
      subst M. unfold maxPaddingSize. lia.
    + intros HLneg. apply Hnone. subst M. unfold maxPaddingSize in *. lia.
  - destruct (WriteHeader_first pool e h opts h' opts' prw s He Hpool Hv Hw)
      as (p & r & k1 & prw' & Hd' & Hr & Hrun & _ & Hlog & Hnone & Hsome).
    rewrite Hd in Hd'. injection Hd' as <-. simpl in Hr.
    rewrite randInt_same in Hr. injection Hr as <- <-.
    exists prw'. split; [exact Hrun |]. split; [exact Hlog |]. split.
    + intros HLpos.
      destruct (Hsome M eq_refl ltac:(subst M; unfold maxPaddingSize; lia))
        as (d & _ & Hlen & ->).
      exists (string_of_list_ascii d). split; [apply Header_Get_Set |].
      rewrite string_of_list_ascii_length, Hlen. f_equal.
      subst M. unfold maxPaddingSize. lia.
    + intros HLneg. apply Hnone. subst M. unfold maxPaddingSize in *. lia.
Qed.

Lemma degenerate_profile_padding_length_witness :
  HeaderName (caller_opts "X-Pad")
    = (if String.eqb (HeaderName (caller_opts "X-Pad")) "" then "T-Padding"%string
       else HeaderName (caller_opts "X-Pad"))
  /\ (exists req' k', Httpc.ToukaPadding pool_X e_last 0
                        (caller_heap {| MinLength := 10; MaxLength := 10 |})
                        (caller_opts "X-Pad") (fun r => r)
                        {| ReqHeader := None; ReqRest := tt |} = Some (req', k')
       /\ (0 < 10 -> exists v, Request_Get req' (HeaderName (caller_opts "X-Pad")) = Some v
                               /\ String.length v = Z.to_nat (Z.min 10 maxPaddingSize))
       /\ (10 <= 0 -> req' = {| ReqHeader := None; ReqRest := tt |}))
  /\ (exists prw', WriteHeader pool_X e_last
                     (caller_heap {| MinLength := 10; MaxLength := 10 |})
                     (caller_opts "X-Pad") (new_writer ∅ 0) 404 = Some prw'
       /\ delegated prw' = delegated (new_writer ∅ 0) ++ [EvWriteHeader 404 (header prw')]
       /\ (0 < 10 -> exists v, Header_Get (header prw') (HeaderName (caller_opts "X-Pad")) = Some v
                               /\ String.length v = Z.to_nat (Z.min 10 maxPaddingSize))
       /\ (10 <= 0 -> header prw' = header (new_writer ∅ 0))).
Proof.
  apply (degenerate_profile_padding_length pool_X e_last 0
           (caller_heap {| MinLength := 10; MaxLength := 10 |}) (caller_opts "X-Pad")
           (caller_heap {| MinLength := 10; MaxLength := 10 |}) (caller_opts "X-Pad")
           caller_loc 10 {| ReqHeader := None; ReqRest := tt |} (new_writer ∅ 0) 404).
  - entropy_ok_tac.
  - vm_compute. reflexivity.
  - reflexivity.
  - reflexivity.
  - vm_compute. reflexivity.
  - reflexivity.
Defined.

(** ** The response-writer wrapper *)

Lemma count_header_writes_app (l1 l2 : list Event) :
  count_header_writes (l1 ++ l2) = (count_header_writes l1 + count_header_writes l2)%nat.
Proof.
  induction l1 as [| [] l1 IH]; simpl; [reflexivity | rewrite IH; reflexivity | exact IH].
Qed.

(** One call of [WriteHeader] sets the flag; on a written wrapper it changes
    nothing, on a fresh one it delegates one header write, which commits the
    header map the call leaves. *)
Lemma WriteHeader_step (pool : list ascii) (e : Entropy) (h : Heap)
    (opts : PaddingOptions) (prw prw1 : paddingResponseWriter) (s : Z) :
  WriteHeader pool e h opts prw s = Some prw1 ->
  wroteHeader prw1 = true
  /\ (wroteHeader prw = true -> prw1 = prw)
  /\ (wroteHeader prw = false ->
      delegated prw1 = delegated prw ++ [EvWriteHeader s (header prw1)]).
Proof.
  unfold WriteHeader. destruct (wroteHeader prw) eqn:Hw.
  - intros [= <-]. split; [exact Hw |]. split; [reflexivity | discriminate].
  - destruct (deref_profile h opts) as [prof |]; cbn [mbind option_bind]; [| discriminate].
    destruct (randInt e _ _ _) as [[[len | err] k1] |]; [| | discriminate].
    + destruct (len >? 0).
      * destruct (getPaddingSlice pool e k1 len) as [[d k2] |]; [| discriminate].
        intros [= <-]. simpl. split; [reflexivity |]. split; [discriminate | reflexivity].
      * intros [= <-]. simpl. split; [reflexivity |]. split; [discriminate | reflexivity].
    + intros [= <-]. simpl. split; [reflexivity |]. split; [discriminate | reflexivity].
Qed.

(** The padding header [WriteHeader] sets on a fresh wrapper when the drawn
    length is positive. *)
Lemma WriteHeader_padding (pool : list ascii) (e : Entropy) (h : Heap)
    (opts : PaddingOptions) (prw prw1 : paddingResponseWriter) (s : Z)
    (p : PaddingProfile) (len : Z) (k1 : nat) :
  wroteHeader prw = false ->
  WriteHeader pool e h opts prw s = Some prw1 ->
  deref_profile h opts = Some p ->
  randInt e (draws prw) (MinLength p) (MaxLength p) = Some (ROk len, k1) -> 0 < len ->
  exists d, getPaddingSlice pool e k1 len = Some (d, draws prw1)
    /\ header prw1 = Header_Set (header prw) (HeaderName opts) (string_of_list_ascii d).
Proof.
  intros Hw Hwh Hd Hr Hlen. revert Hwh. unfold WriteHeader. rewrite Hw, Hd.
  cbn [mbind option_bind draws set_wroteHeader]. rewrite Hr.
  replace (len >? 0) with true by (symmetry; apply Z.gtb_lt; exact Hlen).
  destruct (getPaddingSlice pool e k1 len) as [[d k2] |]; [| discriminate].
  intros [= <-]. exists d. split; reflexivity.
Qed.

(** The default options as [ToukaPaddingS(PaddingOptions{})] installs them. *)
Definition default_opts : PaddingOptions :=
  {| HeaderName := "T-Padding"; Profile := Some loc_ProfileDefault |}.

Definition first_header_write : paddingResponseWriter :=
  match WriteHeader pool_X e_last initial_heap default_opts (new_writer ∅ 0) StatusOK with
  | Some w => w
  | None => new_writer ∅ 0
  end.

Definition first_body_write : paddingResponseWriter * Z :=
  match Write pool_X e_last initial_heap default_opts (new_writer ∅ 0)
          (list_ascii_of_string "hello") with
  | Some r => r
  | None => (new_writer ∅ 0, 0)
  end.

(** C1: once [WriteHeader] has run, a second call (with any status) returns
    normally and leaves the wrapper exactly as it was; the first call on a
    fresh wrapper delegates exactly one header write to the wrapped writer. *)
Theorem WriteHeader_idempotent (pool : list ascii) (e : Entropy) (h : Heap)
    (opts : PaddingOptions) (prw prw1 : paddingResponseWriter) (s1 s2 : Z) :
  WriteHeader pool e h opts prw s1 = Some prw1 ->
  WriteHeader pool e h opts prw1 s2 = Some prw1
  /\ wroteHeader prw1 = true
  /\ count_header_writes (delegated prw1)
     = (count_header_writes (delegated prw) + (if wroteHeader prw then 0 else 1))%nat
  /\ (wroteHeader prw = false ->
      delegated prw1 = delegated prw ++ [EvWriteHeader s1 (header prw1)]).
Proof.
  intros Hwh. destruct (WriteHeader_step pool e h opts prw prw1 s1 Hwh)
    as (Hflag & Hsame & Hlog).
  split.
  { unfold WriteHeader. rewrite Hflag. reflexivity. }
  split; [exact Hflag |]. split.
  - destruct (wroteHeader prw) eqn:Hw.
    + rewrite (Hsame eq_refl). lia.
    + rewrite (Hlog eq_refl), count_header_writes_app. reflexivity.
  - exact Hlog.
Qed.

Lemma WriteHeader_idempotent_witness :
  WriteHeader pool_X e_last initial_heap default_opts first_header_write 404
    = Some first_header_write
  /\ wroteHeader first_header_write = true
  /\ count_header_writes (delegated first_header_write)
     = (count_header_writes (delegated (new_writer ∅ 0))
        + (if wroteHeader (new_writer ∅ 0) then 0 else 1))%nat
  /\ (wroteHeader (new_writer ∅ 0) = false ->
      delegated first_header_write
      = delegated (new_writer ∅ 0) ++ [EvWriteHeader StatusOK (header first_header_write)]).
Proof.
  apply (WriteHeader_idempotent pool_X e_last initial_heap default_opts
           (new_writer ∅ 0) first_header_write StatusOK 404).
  vm_compute. reflexivity.
Defined.

(** C2: on a wrapper whose header is not written yet, [Write(data)] first
    runs [WriteHeader(200)] and then delegates the bytes: the wrapped writer
    sees the header write (with the header map [WriteHeader] left, which
    holds the padding when the drawn length is positive) before the body. *)
Theorem Write_commits_header_first (pool : list ascii) (e : Entropy) (h : Heap)
    (opts : PaddingOptions) (prw prw' : paddingResponseWriter)
    (data : list ascii) (n : Z) :
  wroteHeader prw = false ->
  Write pool e h opts prw data = Some (prw', n) ->
  exists prw1, WriteHeader pool e h opts prw StatusOK = Some prw1
    /\ prw' = delegate prw1 (EvWrite data)
    /\ delegated prw' = delegated prw ++ [EvWriteHeader StatusOK (header prw1); EvWrite data]
    /\ (forall p len k1, deref_profile h opts = Some p ->
          randInt e (draws prw) (MinLength p) (MaxLength p) = Some (ROk len, k1) ->
          0 < len ->
          exists d, getPaddingSlice pool e k1 len = Some (d, draws prw1)
            /\ Header_Get (header prw1) (HeaderName opts) = Some (string_of_list_ascii d)).
Proof.
  intros Hw. unfold Write. rewrite Hw. simpl.
  destruct (WriteHeader pool e h opts prw StatusOK) as [prw1 |] eqn:Hwh; [| discriminate].
  intros [= <- _]. exists prw1. split; [reflexivity |]. split; [reflexivity |].
  destruct (WriteHeader_step pool e h opts prw prw1 StatusOK Hwh) as (_ & _ & Hlog).
  split.
  - simpl. rewrite (Hlog Hw), <- app_assoc. reflexivity.
  - intros p len k1 Hd Hr Hlen.
    destruct (WriteHeader_padding pool e h opts prw prw1 StatusOK p len k1 Hw Hwh Hd Hr Hlen)
      as (d & Hg & Hhd).
    exists d. split; [exact Hg |]. rewrite Hhd. apply Header_Get_Set.
Qed.

Lemma Write_commits_header_first_witness :
  exists prw1, WriteHeader pool_X e_last initial_heap default_opts (new_writer ∅ 0) StatusOK
                 = Some prw1
    /\ fst first_body_write = delegate prw1 (EvWrite (list_ascii_of_string "hello"))
    /\ delegated (fst first_body_write)
       = delegated (new_writer ∅ 0)
         ++ [EvWriteHeader StatusOK (header prw1); EvWrite (list_ascii_of_string "hello")]
    /\ (forall p len k1, deref_profile initial_heap default_opts = Some p ->
          randInt e_last (draws (new_writer ∅ 0)) (MinLength p) (MaxLength p)
            = Some (ROk len, k1) ->
          0 < len ->
          exists d, getPaddingSlice pool_X e_last k1 len = Some (d, draws prw1)
            /\ Header_Get (header prw1) (HeaderName default_opts)
               = Some (string_of_list_ascii d)).
Proof.
  apply (Write_commits_header_first pool_X e_last initial_heap default_opts
           (new_writer ∅ 0) (fst first_body_write) (list_ascii_of_string "hello")
           (snd first_body_write)).
  - reflexivity.
  - vm_compute. reflexivity.
Defined.

(** * Further properties of the code *)

(** ** init *)

Lemma init_loop_no_read (e : Entropy) (k i : nat) :
  init_loop e k i = Some (repeat "X"%char i, k).
Proof.
  induction i as [| i IH]; [reflexivity |].
  simpl. rewrite IH. reflexivity.
Qed.

(** X1: [init] never panics and never reads the entropy source: with the
    one-character [paddingCharset] each draw is [rand.Int(rand.Reader, 1)],
    which returns 0 without reading; so for every source the pool is 4096
    copies of 'X' and the read counter is left at 0. *)
Theorem init_pool_all_X (e : Entropy) :
  init e = Some (pool_X, 0%nat).
Proof. unfold init. rewrite init_loop_no_read. reflexivity. Qed.

(** ** randInt on large and small spans *)

Lemma wrap64_range (z : Z) : int64_min <= wrap64 z <= int64_max.
Proof.
  unfold wrap64, int64_min, int64_max.
  pose proof (Z.mod_pos_bound (z + 2 ^ 63) (2 ^ 64) ltac:(lia)). lia.
Qed.

(** X3: for Go integers [min < max], [randInt(min, max)] panics (inside
    [rand.Int], on a non-positive bound) exactly when [max - min + 1]
    overflows [int], i.e. when [max - min >= 2^63 - 1]; e.g.
    [randInt(0, math.MaxInt64)]. *)
Theorem randInt_panics_iff_span_overflows (e : Entropy) (k : nat) (min max : Z) :
  entropy_ok e -> is_int64 min -> is_int64 max -> min < max ->
  (randInt e k min max = None <-> 2 ^ 63 - 1 <= max - min).
Proof.
  intros He Hmin Hmax Hlt. split.
  - intros Hn. destruct (Z_le_gt_dec (max - min) (2 ^ 63 - 2)) as [Hs | Hs]; [| lia].
    destruct (randInt_total e k min max He Hmin Hmax ltac:(lia) Hs)
      as (r & k' & Hr & _). congruence.
  - intros Hs. unfold randInt.
    rewrite gtb_false by lia.
    replace (min =? max) with false by (symmetry; apply Z.eqb_neq; lia).
    unfold rand_Int.
    destruct (wrap64 (wrap64 (max - min) + 1) <=? 0) eqn:Hn; [reflexivity |].
    exfalso. apply Z.leb_gt in Hn.
    pose proof (span_positive (max - min) ltac:(int64_facts; lia) Hn) as Heq.
    pose proof (wrap64_range (wrap64 (max - min) + 1)) as Hr.
    rewrite Heq in Hr. int64_facts. lia.
Qed.

Lemma randInt_panics_iff_span_overflows_witness :
  randInt e_last 0 0 int64_max = None <-> 2 ^ 63 - 1 <= int64_max - 0.
Proof.
  apply (randInt_panics_iff_span_overflows e_last 0 0 int64_max);
    [entropy_ok_tac | int64_facts; lia | int64_facts; lia | int64_facts; lia].
Defined.

(** X4: for Go integers [min < max] whose span fits, [randInt] makes one
    read [rand.Int(rand.Reader, max - min + 1)] and returns [min] plus the
    value read, or passes the reader's error on. *)
Theorem randInt_one_read (e : Entropy) (k : nat) (min max : Z) :
  entropy_ok e -> is_int64 min -> is_int64 max -> min < max ->
  max - min <= 2 ^ 63 - 2 ->
  randInt e k min max =
    Some (match e k (max - min + 1) with
          | Some v => ROk (v + min)
          | None => RErr ErrReader
          end, S k).
Proof.
  intros He Hmin Hmax Hlt Hs. unfold randInt.
  rewrite gtb_false by lia.
  replace (min =? max) with false by (symmetry; apply Z.eqb_neq; lia).
  rewrite (wrap64_small (max - min)) by (int64_facts; lia).
  rewrite (wrap64_small (max - min + 1)) by (int64_facts; lia).
  rewrite rand_Int_read by lia.
  destruct (e k (max - min + 1)) as [v |] eqn:Hv; [| reflexivity].
  pose proof (He k (max - min + 1) v ltac:(lia) Hv).
  rewrite wrap64_small by (int64_facts; lia). reflexivity.
Qed.

Lemma randInt_one_read_witness :
  randInt e_last 0 3 10 =
    Some (match e_last 0%nat (10 - 3 + 1) with
          | Some v => ROk (v + 3)
          | None => RErr ErrReader
          end, 1%nat).
Proof.
  apply (randInt_one_read e_last 0 3 10);
    [entropy_ok_tac | int64_facts; lia | int64_facts; lia | lia | lia].
Defined.

(** ** Installation, continued *)

Lemma clamped_idem (p : PaddingProfile) : clamped (clamped p) = clamped p.
Proof. destruct p as [mn mx]. unfold clamped, maxPaddingSize; simpl. f_equal; lia. Qed.

Lemma clamped_in_range (p : PaddingProfile) :
  0 <= MinLength p -> MinLength p <= MaxLength p -> MaxLength p <= maxPaddingSize ->
  clamped p = p.
Proof.
  destruct p as [mn mx]. unfold clamped, maxPaddingSize; simpl. intros. f_equal; lia.
Qed.

(** X5: installing already-installed options again changes nothing: the
    check block is idempotent (the header name it leaves is not empty, and
    the profile it leaves is in range). *)
Theorem validate_opts_idempotent (h : Heap) (opts : PaddingOptions) h' opts' :
  validate_opts h opts = Some (h', opts') -> validate_opts h' opts' = Some (h', opts').
Proof.
  intros Hv. destruct (validate_opts_inv h opts h' opts' Hv)
    as (p0 & _ & -> & Hprof & Hname & _).
  destruct opts' as [nm pr]; simpl in Hprof, Hname. subst pr.
  rewrite (validate_opts_result _ _ (clamped p0))
    by (unfold opts_loc; simpl; apply lookup_insert_eq).
  unfold opts_loc; simpl. rewrite clamped_idem, insert_insert_eq.
  do 3 f_equal.
  destruct (String.eqb (HeaderName opts) "") eqn:E; subst nm; [reflexivity |].
  rewrite E. reflexivity.
Qed.

Lemma validate_opts_idempotent_witness :
  validate_opts initial_heap default_opts = Some (initial_heap, default_opts).
Proof.
  apply (validate_opts_idempotent initial_heap {| HeaderName := ""; Profile := None |}).
  vm_compute. reflexivity.
Defined.

(** X6: installation writes at most the profile [opts.Profile] points to
    ([ProfileDefault] when it is nil), and leaves the heap as it is when that
    profile already has [0 <= MinLength <= MaxLength <= 4096]; so installing
    with a nil profile leaves the presets as the program starts with them. *)
Theorem validate_opts_frame (h : Heap) (opts : PaddingOptions) h' opts' :
  validate_opts h opts = Some (h', opts') ->
  (forall l', l' <> opts_loc opts -> h' !! l' = h !! l')
  /\ (forall p, h !! opts_loc opts = Some p -> 0 <= MinLength p ->
        MinLength p <= MaxLength p -> MaxLength p <= maxPaddingSize -> h' = h).
Proof.
  intros Hv. destruct (validate_opts_inv h opts h' opts' Hv) as (p0 & Hp0 & -> & _).
  split.
  - intros l' Hne. apply lookup_insert_ne. congruence.
  - intros p Hp H1 H2 H3. rewrite Hp0 in Hp. injection Hp as <-.
    rewrite clamped_in_range by assumption. apply insert_id. exact Hp0.
Qed.

Lemma validate_opts_frame_witness :
  (forall l', l' <> opts_loc {| HeaderName := ""; Profile := None |} ->
     initial_heap !! l' = initial_heap !! l')
  /\ (forall p, initial_heap !! opts_loc {| HeaderName := ""; Profile := None |} = Some p ->
        0 <= MinLength p -> MinLength p <= MaxLength p -> MaxLength p <= maxPaddingSize ->
        initial_heap = initial_heap).
Proof.
  apply (validate_opts_frame initial_heap {| HeaderName := ""; Profile := None |}
           initial_heap default_opts).
  vm_compute. reflexivity.
Defined.

(** ** The padding content *)

Lemma firstn_repeat' {A} (x : A) (n m : nat) :
  firstn n (repeat x m) = repeat x (Nat.min n m).
Proof.
  revert m. induction n as [| n IH]; intros [| m]; simpl; try reflexivity.
  rewrite IH. reflexivity.
Qed.

Lemma skipn_repeat' {A} (x : A) (n m : nat) :
  skipn n (repeat x m) = repeat x (m - n).
Proof.
  revert m. induction n as [| n IH]; intros m.
  - simpl. rewrite Nat.sub_0_r. reflexivity.
  - destruct m; simpl; [reflexivity | apply IH].
Qed.

(** X9: with the pool [init] fills (for any entropy source, the one the
    draws then use included), every padding value [getPaddingSlice] returns
    is a run of 'X' characters: only its length varies. *)
Theorem padding_bytes_all_X (e : Entropy) (pool : list ascii) (k0 k : nat) (len : Z)
    (d : list ascii) (k' : nat) :
  init e = Some (pool, k0) ->
  getPaddingSlice pool e k len = Some (d, k') ->
  d = repeat "X"%char (length d).
Proof.
  intros Hi Hg.
  assert (Hpool : pool = repeat "X"%char (Z.to_nat maxPaddingSize)).
  { unfold init in Hi. rewrite init_loop_no_read in Hi. congruence. }
  clear Hi.
  revert Hg. unfold getPaddingSlice.
  destruct (len <=? 0); [intros [= <- _]; reflexivity |].
  destruct (randInt e k 0 _) as [[r k1] |]; [| discriminate].
  unfold go_slice.
  destruct (_ && _ && _); [| discriminate].
  intros [= <- _]. rewrite Hpool, skipn_repeat', firstn_repeat', repeat_length.
  reflexivity.
Qed.

Lemma padding_bytes_all_X_witness :
  firstn 10 pool_X = repeat "X"%char (length (firstn 10 pool_X)).
Proof.
  apply (padding_bytes_all_X e_fail pool_X 0 0 10 (firstn 10 pool_X) 1);
    vm_compute; reflexivity.
Defined.

(** ** Headers around the padding *)

Lemma Header_Get_Set_other (hd : Header) (name key v : string) :
  CanonicalMIMEHeaderKey key <> CanonicalMIMEHeaderKey name ->
  Header_Get (Header_Set hd name v) key = Header_Get hd key.
Proof.
  intros Hne. unfold Header_Get, Header_Set. rewrite lookup_insert_ne by congruence.
  reflexivity.
Qed.

(** A request with one header besides the padding, and what the default
    installation forwards for it. *)
Definition example_request : Request unit :=
  {| ReqHeader := Some (Header_Set ∅ "Accept" "text/html"); ReqRest := tt |}.

Definition example_forwarded : Request unit * nat :=
  match Httpc.ToukaPadding pool_X e_last 0 initial_heap default_opts (fun r => r)
          example_request with
  | Some r => r
  | None => (example_request, 0%nat)
  end.

(** X8: the outbound middleware changes nothing in the request but the
    padding header: every header under another (canonical) key reads the
    same, and the rest of the request is the same. *)
Theorem ToukaPadding_keeps_other_headers {Rest : Type} (pool : list ascii) (e : Entropy)
    (k : nat) (h : Heap) (opts : PaddingOptions) (req req' : Request Rest) (k' : nat) :
  Httpc.ToukaPadding pool e k h opts (fun r => r) req = Some (req', k') ->
  ReqRest req' = ReqRest req
  /\ (forall key, CanonicalMIMEHeaderKey key <> CanonicalMIMEHeaderKey (HeaderName opts) ->
        Request_Get req' key = Request_Get req key).
Proof.
  unfold Httpc.ToukaPadding.
  destruct (deref_profile h opts) as [prof |]; cbn [mbind option_bind]; [| discriminate].
  destruct (randInt e k _ _) as [[[len | err] k1] |]; [| | discriminate].
  - destruct (len >? 0).
    + destruct (getPaddingSlice pool e k1 len) as [[d k2] |]; [| discriminate].
      intros [= <- _]. split; [reflexivity |].
      intros key Hne. unfold Request_Get; simpl.
      rewrite Header_Get_Set_other by exact Hne.
      destruct (ReqHeader req); [reflexivity |].
      unfold Header_Get. rewrite lookup_empty. reflexivity.
    + intros [= <- _]. split; reflexivity.
  - intros [= <- _]. split; reflexivity.
Qed.

Lemma ToukaPadding_keeps_other_headers_witness :
  ReqRest (fst example_forwarded) = ReqRest example_request
  /\ (forall key, CanonicalMIMEHeaderKey key <> CanonicalMIMEHeaderKey (HeaderName default_opts) ->
        Request_Get (fst example_forwarded) key = Request_Get example_request key).
Proof.
  apply (ToukaPadding_keeps_other_headers pool_X e_last 0 initial_heap default_opts
           example_request (fst example_forwarded) (snd example_forwarded)).
  vm_compute. reflexivity.
Defined.

(** X7: on installed options, a padding header added to an outbound request
    or by the response wrapper's first [WriteHeader] has a length between
    the installed profile's [MinLength] and [MaxLength] (and is non-empty);
    otherwise the request or the header map is left as it was. *)
Theorem padding_length_in_profile_range {Rest : Type} (pool : list ascii) (e : Entropy)
    (k : nat) (h : Heap) (opts : PaddingOptions) h' opts' (req : Request Rest)
    (prw : paddingResponseWriter) (s : Z) :
  entropy_ok e -> length pool = Z.to_nat maxPaddingSize ->
  validate_opts h opts = Some (h', opts') -> wroteHeader prw = false ->
  exists p, deref_profile h' opts' = Some p
    /\ (exists req' k', Httpc.ToukaPadding pool e k h' opts' (fun r => r) req = Some (req', k')
         /\ (req' = req
             \/ exists v, Request_Get req' (HeaderName opts') = Some v
                  /\ 0 < Z.of_nat (String.length v)
                  /\ MinLength p <= Z.of_nat (String.length v) <= MaxLength p))
    /\ (exists prw', WriteHeader pool e h' opts' prw s = Some prw'
         /\ (header prw' = header prw
             \/ exists v, Header_Get (header prw') (HeaderName opts') = Some v
                  /\ 0 < Z.of_nat (String.length v)
                  /\ MinLength p <= Z.of_nat (String.length v) <= MaxLength p)).
Proof.
  intros He Hpool Hv Hw.
  destruct (validate_opts_inv h opts h' opts' Hv) as (p0 & _ & _ & _ & _ & Hd).
  pose proof (clamped_bounds p0) as [Hb _].
  exists (clamped p0). split; [exact Hd |]. split.
  - destruct (Httpc_ToukaPadding_result pool e k h opts h' opts' (fun r : Request Rest => r)
                req He Hpool Hv)
      as (p & r & k1 & req' & k' & Hd' & Hr & Hrun & Hrange & Hnone & Hsome).
    rewrite Hd in Hd'. injection Hd' as <-.
    exists req', k'. split; [exact Hrun |].
    destruct r as [len | err].
    + destruct (Z_le_gt_dec len 0) as [Hle | Hgt].
      * left. apply Hnone. exact Hle.
      * right. destruct (Hsome len eq_refl ltac:(lia)) as (d & _ & Hlen & Hget).
        specialize (Hrange len eq_refl).
        exists (string_of_list_ascii d). split; [exact Hget |].
        rewrite string_of_list_ascii_length, Hlen, Z2Nat.id by lia.
        rewrite Z.min_l by lia. lia.
    + left. apply Hnone. exact I.
  - destruct (WriteHeader_first pool e h opts h' opts' prw s He Hpool Hv Hw)
      as (p & r & k1 & prw' & Hd' & Hr & Hrun & _ & _ & Hnone & Hsome).
    rewrite Hd in Hd'. injection Hd' as <-.
    exists prw'. split; [exact Hrun |].
    destruct r as [len | err].
    + destruct (Z_le_gt_dec len 0) as [Hle | Hgt].
      * left. apply Hnone. exact Hle.
      * right. destruct (Hsome len eq_refl ltac:(lia)) as (d & _ & Hlen & ->).
        destruct (clamped_randInt e (draws prw) p0 He) as (r2 & k2 & Hr2 & Hrange).
        rewrite Hr in Hr2. injection Hr2 as <- _.
        specialize (Hrange len eq_refl).
        exists (string_of_list_ascii d). split; [apply Header_Get_Set |].
        rewrite string_of_list_ascii_length, Hlen, Z2Nat.id by lia.
        rewrite Z.min_l by lia. lia.
    + left. apply Hnone. exact I.
Qed.

Lemma padding_length_in_profile_range_witness :
  exists p, deref_profile initial_heap default_opts = Some p
    /\ (exists req' k', Httpc.ToukaPadding pool_X e_last 0 initial_heap default_opts
                          (fun r => r) example_request = Some (req', k')
         /\ (req' = example_request
             \/ exists v, Request_Get req' (HeaderName default_opts) = Some v
                  /\ 0 < Z.of_nat (String.length v)
                  /\ MinLength p <= Z.of_nat (String.length v) <= MaxLength p))
    /\ (exists prw', WriteHeader pool_X e_last initial_heap default_opts (new_writer ∅ 0)
                       StatusOK = Some prw'
         /\ (header prw' = header (new_writer ∅ 0)
             \/ exists v, Header_Get (header prw') (HeaderName default_opts) = Some v
                  /\ 0 < Z.of_nat (String.length v)
                  /\ MinLength p <= Z.of_nat (String.length v) <= MaxLength p)).
Proof.
  apply (padding_length_in_profile_range pool_X e_last 0 initial_heap default_opts
           initial_heap default_opts example_request (new_writer ∅ 0) StatusOK).
  - entropy_ok_tac.
  - reflexivity.
  - vm_compute. reflexivity.
  - reflexivity.
Defined.

(** ** The response wrapper *)

(** X10: the response wrapper fails open: on installed options its first
    [WriteHeader] never panics, always passes the status on to the wrapped
    writer (once, with the header map as it then is), and when the length
    draw fails it leaves the header map as it was. *)
Theorem WriteHeader_fail_open (pool : list ascii) (e : Entropy) (h : Heap)
    (opts : PaddingOptions) h' opts' (prw : paddingResponseWriter) (s : Z) :
  entropy_ok e -> length pool = Z.to_nat maxPaddingSize ->
  validate_opts h opts = Some (h', opts') -> wroteHeader prw = false ->
  exists prw', WriteHeader pool e h' opts' prw s = Some prw'
    /\ wroteHeader prw' = true
    /\ delegated prw' = delegated prw ++ [EvWriteHeader s (header prw')]
    /\ (forall p err k1, deref_profile h' opts' = Some p ->
          randInt e (draws prw) (MinLength p) (MaxLength p) = Some (RErr err, k1) ->
          header prw' = header prw /\ draws prw' = k1).
Proof.
  intros He Hpool Hv Hw.
  destruct (WriteHeader_first pool e h opts h' opts' prw s He Hpool Hv Hw)
    as (p & r & k1 & prw' & Hd & Hr & Hrun & Hwr & Hdel & _ & _).
  exists prw'. split; [exact Hrun |]. split; [exact Hwr |]. split; [exact Hdel |].
  intros p' err k1' Hd' Hr'. rewrite Hd in Hd'. injection Hd' as <-.
  revert Hrun. unfold WriteHeader. rewrite Hw, Hd. cbn [mbind option_bind draws set_wroteHeader].
  rewrite Hr'. intros [= <-]. split; reflexivity.
Qed.

(** An entropy source whose reads all fail: [rand.Reader] returning an
    error, so every length draw gives [RErr ErrReader]. *)
Lemma WriteHeader_fail_open_witness :
  exists prw', WriteHeader pool_X e_fail initial_heap default_opts (new_writer ∅ 0) 404
                 = Some prw'
    /\ wroteHeader prw' = true
    /\ delegated prw' = delegated (new_writer ∅ 0) ++ [EvWriteHeader 404 (header prw')]
    /\ (forall p err k1, deref_profile initial_heap default_opts = Some p ->
          randInt e_fail (draws (new_writer ∅ 0)) (MinLength p) (MaxLength p)
            = Some (RErr err, k1) ->
          header prw' = header (new_writer ∅ 0) /\ draws prw' = k1).
Proof.
  apply (WriteHeader_fail_open pool_X e_fail initial_heap default_opts initial_heap
           default_opts (new_writer ∅ 0) 404).
  - entropy_ok_tac.
  - reflexivity.
  - vm_compute. reflexivity.
  - reflexivity.
Defined.

Lemma count_header_writes_body_writes (calls : list WriterCall) :
  count_header_writes (body_writes calls) = O.
Proof. induction calls as [| [s | d] cs IH]; simpl; auto. Qed.

(** Once the header is written, the wrapper passes every [Write] straight
    through and ignores every [WriteHeader]. *)
Lemma run_calls_written (pool : list ascii) (e : Entropy) (h : Heap) (opts : PaddingOptions)
    (calls : list WriterCall) (prw : paddingResponseWriter) :
  wroteHeader prw = true ->
  exists prw', run_calls pool e h opts prw calls = Some prw'
    /\ wroteHeader prw' = true
    /\ header prw' = header prw
    /\ delegated prw' = delegated prw ++ body_writes calls.
Proof.
  revert prw. induction calls as [| [s | d] cs IH]; intros prw Hw; simpl.
  - exists prw. rewrite app_nil_r. auto.
  - unfold WriteHeader at 1. rewrite Hw. apply IH. exact Hw.
  - unfold Write at 1. rewrite Hw. simpl.
    destruct (IH (delegate prw (EvWrite d)) Hw) as (prw' & Hrun & Hw' & Hh & Hd).
    exists prw'. split; [exact Hrun |]. split; [exact Hw' |]. split; [exact Hh |].
    rewrite Hd. simpl. rewrite <- app_assoc. reflexivity.
Qed.

(** X11: whatever non-empty sequence of [WriteHeader] and [Write] calls the
    handler chain makes on a fresh wrapper with installed options, nothing
    panics and the wrapped writer sees exactly one [WriteHeader], first, with
    the status of the first call (200 when that is a [Write]), followed by
    every body write in order. *)
Theorem handler_calls_one_header_write (pool : list ascii) (e : Entropy) (h : Heap)
    (opts : PaddingOptions) h' opts' (hdr : Header) (kw : nat) (calls : list WriterCall) :
  entropy_ok e -> length pool = Z.to_nat maxPaddingSize ->
  validate_opts h opts = Some (h', opts') -> calls <> [] ->
  exists prw' hd, run_calls pool e h' opts' (new_writer hdr kw) calls = Some prw'
    /\ delegated prw' = EvWriteHeader (first_status calls) hd :: body_writes calls
    /\ count_header_writes (delegated prw') = 1%nat.
Proof.
  intros He Hpool Hv Hne.
  destruct calls as [| c cs]; [contradiction |].
  destruct (WriteHeader_first pool e h opts h' opts' (new_writer hdr kw)
              (first_status (c :: cs)) He Hpool Hv eq_refl)
    as (p & r & k1 & prw1 & _ & _ & Hrun & Hw & Hdel & _ & _).
  simpl in Hdel.
  destruct c as [s | d]; simpl in Hrun |- *.
  - rewrite Hrun.
    destruct (run_calls_written pool e h' opts' cs prw1 Hw) as (prw' & Hrun' & _ & _ & Hd).
    exists prw', (header prw1). split; [exact Hrun' |].
    rewrite Hd, Hdel. split; [reflexivity |].
    simpl. rewrite count_header_writes_body_writes. reflexivity.
  - unfold Write at 1. simpl. rewrite Hrun.
    destruct (run_calls_written pool e h' opts' cs (delegate prw1 (EvWrite d)) Hw)
      as (prw' & Hrun' & _ & _ & Hd).
    exists prw', (header prw1). split; [exact Hrun' |].
    rewrite Hd. simpl. rewrite Hdel. split; [reflexivity |].
    simpl. rewrite count_header_writes_body_writes. reflexivity.
Qed.

Definition example_calls : list WriterCall :=
  [CallWrite (list_ascii_of_string "hello"); CallWriteHeader 404;
   CallWrite (list_ascii_of_string "world")].

Lemma handler_calls_one_header_write_witness :
  exists prw' hd, run_calls pool_X e_last initial_heap default_opts (new_writer ∅ 0)
                    example_calls = Some prw'
    /\ delegated prw' = EvWriteHeader (first_status example_calls) hd
                          :: body_writes example_calls
    /\ count_header_writes (delegated prw') = 1%nat.
Proof.
  apply (handler_calls_one_header_write pool_X e_last initial_heap default_opts
           initial_heap default_opts ∅ 0 example_calls).
  - entropy_ok_tac.
  - reflexivity.
  - vm_compute. reflexivity.
  - discriminate.
Defined.
